(** * PackagesAPI: the generated client of the packages/stacks endpoints

    A shallow embedding of [packages/apis/src/generated/PackagesAPI.ts].

    The class holds one private field, [base], and eight methods; every
    method is a single [return this.base.request(...)].  The embedding keeps
    the JavaScript view of that code: objects live in a heap and are passed
    by reference, a property read on [undefined] throws, a template literal
    applies [ToString] to what it interpolates, and the calls made to
    [base.request] are recorded in the order they happen.

    [APIBase] is imported by the file and not part of it: the methods are
    embedded over any implementation of the two members they use, and
    [SpecBase] is the implementation the specification describes. *)

From Stdlib Require Import Ascii.
From stdpp Require Import base strings gmap list.

Open Scope string_scope.

(** ** The fragment of JavaScript the module runs on *)

Module JS.

Definition loc := positive.

(** What can be stored in a field or passed as an argument: the request
    interfaces only have string fields and object-valued [body] fields;
    [undefined] is what a read of a missing field gives. *)
Inductive value : Type :=
| VUndefined
| VNull
| VString (s : string)
| VObject (l : loc).

#[global] Instance value_eq_dec : EqDecision value.
Proof. solve_decision. Defined.

Inductive error : Type :=
| TypeError (msg : string)
| Error (msg : string).

Inductive completion (A : Type) : Type :=
| Normal (a : A)
| Throw (e : error).
Arguments Normal {A} a.
Arguments Throw {A} e.

(** [o.f]: a missing property reads as [undefined]; reading a property of
    [undefined] or [null] throws.  A string has none of the properties
    the module reads. *)
Definition get (h : gmap loc (gmap string value)) (o : value) (f : string)
  : completion value :=
  match o with
  | VObject l => Normal (default VUndefined (h !! l ≫= (.!! f)))
  | VString _ => Normal VUndefined
  | VUndefined =>
      Throw (TypeError ("Cannot read properties of undefined (reading '" +:+ f +:+ "')"))
  | VNull =>
      Throw (TypeError ("Cannot read properties of null (reading '" +:+ f +:+ "')"))
  end.

(** [ToString], as a template literal applies it to [${...}]; an object
    is a plain one, printed by [Object.prototype.toString]. *)
Definition ToString (v : value) : string :=
  match v with
  | VUndefined => "undefined"
  | VNull => "null"
  | VString s => s
  | VObject _ => "[object Object]"
  end.

End JS.
Export JS.

Abbreviation object := (gmap string value).
Abbreviation heap := (gmap loc (gmap string value)).

(** A promise, seen through the way it eventually settles. *)
Inductive Promise : Type :=
| Resolves (v : value)
| Rejects (reason : value)
| Pending.

Definition resolves_with (p : Promise) (v : value) : Prop := p = Resolves v.
Definition rejects_with (p : Promise) (r : value) : Prop := p = Rejects r.

(** ** The collaborator: APIBase

    [import {APIBase, RequestOptions} from '../APIBase'].  The class uses
    its constructor and two of its methods; [this] of a call is the first
    argument.  The methods have the signatures the specification gives
    them: [request] returns a pending result, [queryString] a string. *)
Class APIBase : Type := {
  (** the body of [constructor(influxDB)], run on the new object *)
  init : loc → value → heap → completion () * heap;
  (** [request(method, path, request, requestOptions, mediaType?)] *)
  request : loc → string → string → value → value → option string →
            heap → Promise * heap;
  (** [queryString(request, params)] *)
  queryString : loc → heap → value → list string → string
}.

(** One call of [base.request], as the module made it. *)
Record call : Type := Call {
  c_base : loc;
  c_method : string;
  c_path : string;
  c_request : value;
  c_options : value;
  c_mediaType : option string;
  c_result : Promise
}.

Record world : Type := World {
  w_heap : heap;
  w_calls : list call
}.

(** ** Computations: state and exceptions *)

Definition M (A : Type) : Type := world → completion A * world.

Definition ret {A} (a : A) : M A := λ w, (Normal a, w).

Definition bind {A B} (m : M A) (k : A → M B) : M B :=
  λ w, match m w with
       | (Normal a, w') => k a w'
       | (Throw e, w') => (Throw e, w')
       end.

Notation "'let!' x ':=' m 'in' k" := (bind m (λ x, k))
  (at level 10, x name, m at level 100, k at level 200,
   format "'[v' 'let!'  x  ':='  m  'in' '/' k ']'").

(** [o.f] in the current heap. *)
Definition read (o : value) (f : string) : M value :=
  λ w, (get (w_heap w) o f, w).

(** [o.f = v]; only the constructor assigns. *)
Definition write (o : value) (f : string) (v : value) : M () :=
  λ w, match o with
       | VObject l =>
           (Normal (),
            World (<[l := <[f := v]> (default ∅ (w_heap w !! l))]> (w_heap w))
                  (w_calls w))
       | _ => (Throw (TypeError ("Cannot set properties (setting '" +:+ f +:+ "')")), w)
       end.

(** [new C(...)] starts from a new, empty object. *)
Definition alloc : M value :=
  λ w, let l := fresh (dom (w_heap w)) in
       (Normal (VObject l), World (<[l := ∅]> (w_heap w)) (w_calls w)).

(** Calling [b.m(...)] where [b] has no method [m]. *)
Definition not_callable {A} (b : value) (m : string) : M A :=
  λ w, match get (w_heap w) b m with
       | Throw e => (Throw e, w)
       | Normal _ => (Throw (TypeError ("this.base." +:+ m +:+ " is not a function")), w)
       end.

Section Calls.
Context {B : APIBase}.

(** The constructor of APIBase, run on [this]. *)
Definition call_init (this influxDB : value) : M () :=
  λ w, match this with
       | VObject l =>
           let '(r, h') := init l influxDB (w_heap w) in
           (r, World h' (w_calls w))
       | _ => (Throw (TypeError "this is not an object"), w)
       end.

(** [new APIBase(influxDB)] *)
Definition new_APIBase (influxDB : value) : M value :=
  let! this := alloc in
  let! _ := call_init this influxDB in
  ret this.

(** [b.queryString(req, params)] *)
Definition call_queryString (b req : value) (params : list string) : M string :=
  match b with
  | VObject lb => λ w, (Normal (queryString lb (w_heap w) req params), w)
  | _ => not_callable b "queryString"
  end.

(** [b.request(method, path, req, opts, mediaType)] *)
Definition call_request (b : value) (method path : string) (req opts : value)
    (mediaType : option string) : M Promise :=
  match b with
  | VObject lb =>
      λ w, let '(p, h') := request lb method path req opts mediaType (w_heap w) in
           (Normal p,
            World h' (w_calls w ++ [Call lb method path req opts mediaType p]))
  | _ => not_callable b "request"
  end.
End Calls.

(** ** The class *)

Module PackagesAPI.
Section Methods.
Context {B : APIBase}.

(** [constructor(influxDB) { this.base = new APIBase(influxDB) }] *)
Definition constructor (influxDB : value) : M value :=
  let! this := alloc in
  let! b := new_APIBase influxDB in
  let! _ := write this "base" b in
  ret this.

Definition createPkg (this request requestOptions : value) : M Promise :=
  let! base := read this "base" in
  call_request base "POST" "/api/v2/packages"
    request requestOptions (Some "application/json").

Definition applyPkg (this request requestOptions : value) : M Promise :=
  let! base := read this "base" in
  call_request base "POST" "/api/v2/packages/apply"
    request requestOptions (Some "application/json").

Definition listStacks (this request requestOptions : value) : M Promise :=
  let! base := read this "base" in
  let! base' := read this "base" in
  let! qs := call_queryString base' request ["orgID"; "name"; "stackID"] in
  call_request base "GET" ("/api/v2/packages/stacks" +:+ qs)
    request requestOptions None.

Definition createStack (this request requestOptions : value) : M Promise :=
  let! base := read this "base" in
  call_request base "POST" "/api/v2/packages/stacks"
    request requestOptions (Some "application/json").

Definition readStack (this request requestOptions : value) : M Promise :=
  let! base := read this "base" in
  let! stack_id := read request "stack_id" in
  call_request base "GET" ("/api/v2/packages/stacks/" +:+ ToString stack_id)
    request requestOptions None.

Definition updateStack (this request requestOptions : value) : M Promise :=
  let! base := read this "base" in
  let! stack_id := read request "stack_id" in
  call_request base "PATCH" ("/api/v2/packages/stacks/" +:+ ToString stack_id)
    request requestOptions (Some "application/json").

Definition deleteStack (this request requestOptions : value) : M Promise :=
  let! base := read this "base" in
  let! stack_id := read request "stack_id" in
  let! base' := read this "base" in
  let! qs := call_queryString base' request ["orgID"] in
  call_request base "DELETE"
    ("/api/v2/packages/stacks/" +:+ ToString stack_id +:+ qs)
    request requestOptions None.

Definition exportStack (this request requestOptions : value) : M Promise :=
  let! base := read this "base" in
  let! stack_id := read request "stack_id" in
  let! base' := read this "base" in
  let! qs := call_queryString base' request ["orgID"] in
  call_request base "DELETE"
    ("/api/v2/packages/stacks/" +:+ ToString stack_id +:+ "/export" +:+ qs)
    request requestOptions None.
End Methods.
End PackagesAPI.

(** The eight operations, and the method each one names. *)
Inductive operation : Type :=
| CreatePkg | ApplyPkg | ListStacks | CreateStack
| ReadStack | UpdateStack | DeleteStack | ExportStack.

#[global] Instance operation_eq_dec : EqDecision operation.
Proof. solve_decision. Defined.

Section Invoke.
Context {B : APIBase}.

Definition invoke (op : operation) : value → value → value → M Promise :=
  match op with
  | CreatePkg => PackagesAPI.createPkg
  | ApplyPkg => PackagesAPI.applyPkg
  | ListStacks => PackagesAPI.listStacks
  | CreateStack => PackagesAPI.createStack
  | ReadStack => PackagesAPI.readStack
  | UpdateStack => PackagesAPI.updateStack
  | DeleteStack => PackagesAPI.deleteStack
  | ExportStack => PackagesAPI.exportStack
  end.

(** A caller using one instance for a series of calls. *)
Fixpoint invoke_all (this : value) (l : list (operation * value * value))
  : M (list Promise) :=
  match l with
  | [] => ret []
  | (op, req, opts) :: l' =>
      let! p := invoke op this req opts in
      let! ps := invoke_all this l' in
      ret (p :: ps)
  end.
End Invoke.

(** [this.base] of the instance at [lthis] is the APIBase object at [lb]. *)
Definition is_instance (h : heap) (lthis lb : loc) : Prop :=
  h !! lthis ≫= (.!! "base") = Some (VObject lb).

(** The field [f] of the request, as [request.f] reads it. *)
Definition field (h : heap) (req : value) (f : string) : value :=
  match get h req f with
  | Normal v => v
  | Throw _ => VUndefined
  end.

(** The URL of the last call on record. *)
Definition url_sent (r : completion Promise * world) : option string :=
  c_path <$> last (w_calls r.2).

(** ** Typed requests *)

(** [interface ListStacksRequest] *)
Record ListStacksRequest : Type := {
  ls_orgID : string;
  ls_name : option string;
  ls_stackID : option string
}.

(** [interface DeleteStackRequest] *)
Record DeleteStackRequest : Type := {
  stack_id : string;
  orgID : string
}.

Definition set_optional (f : string) (v : option string) (o : gmap string value)
  : gmap string value :=
  match v with
  | Some s => <[f := VString s]> o
  | None => o
  end.

Definition ListStacksRequest_object (r : ListStacksRequest) : gmap string value :=
  set_optional "stackID" (ls_stackID r)
    (set_optional "name" (ls_name r) {["orgID" := VString (ls_orgID r)]}).

Definition DeleteStackRequest_object (r : DeleteStackRequest) : gmap string value :=
  <["stack_id" := VString (stack_id r)]> {["orgID" := VString (orgID r)]}.

(** ** The contract table of the specification (section 4.1), with the
    paths as section 6 spells them *)

Definition contract_verb (op : operation) : string :=
  match op with
  | CreatePkg | ApplyPkg | CreateStack => "POST"
  | ListStacks | ReadStack => "GET"
  | UpdateStack => "PATCH"
  | DeleteStack => "DELETE"
  | ExportStack => "DELETE"
  end.

Definition contract_path (op : operation) (stack_id : string) : string :=
  match op with
  | CreatePkg => "/api/v2/packages"
  | ApplyPkg => "/api/v2/packages/apply"
  | ListStacks | CreateStack => "/api/v2/packages/stacks"
  | ReadStack | UpdateStack | DeleteStack =>
      "/api/v2/packages/stacks/" +:+ stack_id
  | ExportStack => "/api/v2/packages/stacks/" +:+ stack_id +:+ "/export"
  end.

(** The request fields the table lists as query parameters. *)
Definition contract_query (op : operation) : list string :=
  match op with
  | ListStacks => ["orgID"; "name"; "stackID"]
  | DeleteStack | ExportStack => ["orgID"]
  | _ => []
  end.

(** The operations for which the table has a body. *)
Definition carries_body (op : operation) : bool :=
  match op with
  | CreatePkg | ApplyPkg | CreateStack | UpdateStack => true
  | _ => false
  end.

(** The query string that follows the path: what APIBase makes of the
    fields the table names, nothing where it names none. *)
Definition query_part {B : APIBase} (lb : loc) (h : heap) (op : operation)
    (req : value) : string :=
  match contract_query op with
  | [] => ""
  | params => queryString lb h req params
  end.

(** ** APIBase as the specification describes it *)

Module SpecBase.

(** What goes out on the wire for one call. *)
Record wire : Type := Wire {
  wire_method : string;
  wire_url : string;
  wire_body : option value;
  wire_contentType : option string;
  wire_options : value
}.

(** A field counts as present when it holds something. *)
Definition present (v : value) : bool :=
  match v with
  | VUndefined | VNull => false
  | _ => true
  end.

Definition unreserved (c : ascii) : bool :=
  let n := nat_of_ascii c in
  (Nat.leb 48 n && Nat.leb n 57) || (Nat.leb 65 n && Nat.leb n 90) ||
  (Nat.leb 97 n && Nat.leb n 122) ||
  bool_decide (c ∈ String.list_ascii_of_string "-_.!~*'()").

Definition hex_digit (n : nat) : ascii :=
  default "0"%char (String.list_ascii_of_string "0123456789ABCDEF" !! n).

(** Modelled from the spec: the encoding that APIBase.queryString applies.
    The spec only says the named fields are "encoded"; this is the usual
    percent-encoding of a URI component, byte by byte. *)
Fixpoint uri_encode (s : string) : string :=
  match s with
  | EmptyString => EmptyString
  | String c s' =>
      if unreserved c then String c (uri_encode s')
      else
        let n := nat_of_ascii c in
        String "%" (String (hex_digit (n / 16)%nat) (String (hex_digit (n mod 16)%nat)
          (uri_encode s')))
  end.

Definition pair_of (h : heap) (req : value) (key : string) : option string :=
  let v := field h req key in
  if present v then Some (uri_encode key +:+ "=" +:+ uri_encode (ToString v))
  else None.

(** Modelled from the spec: APIBase.queryString(requestObject, fieldNames),
    which "filters and encodes only those named fields, ignoring all
    others": the named fields that are present, in the order they are
    named, as [?k1=v1&k2=v2]; nothing when none is present. *)
Definition queryString_spec (lb : loc) (h : heap) (req : value)
    (params : list string) : string :=
  match omap (pair_of h req) params with
  | [] => ""
  | kvs => "?" +:+ String.concat "&" kvs
  end.

(** The body of the request object, where it has one. *)
Definition body_of (h : heap) (req : value) : option value :=
  let v := field h req "body" in
  if present v then Some v else None.

(** Modelled from the spec: the constructor of APIBase, of which the spec
    says that the object "holds connection/auth context": the new object
    keeps the handle it is given. *)
Definition init_spec (lb : loc) (influxDB : value) (h : heap)
  : completion () * heap :=
  (Normal (), <[lb := <["influxDB" := influxDB]> (default ∅ (h !! lb))]> h).

Section Server.
Variable server : wire → Promise.

(** Modelled from the spec: APIBase.request(verb, path, requestObject,
    options, contentType?), which "performs the actual network call" and
    "serializes bodies": one message to the server, whose answer settles the
    promise; the objects of the caller are only read. *)
Definition request_spec (lb : loc) (method path : string) (req opts : value)
    (mediaType : option string) (h : heap) : Promise * heap :=
  (server (Wire method path (body_of h req) mediaType opts), h).

Definition base : APIBase := Build_APIBase init_spec request_spec queryString_spec.
End Server.

End SpecBase.

(** ** What one invocation does *)

Section Run.
Context {B : APIBase}.

(** The arguments a method hands to [base.request], read off its body. *)
Definition sent_verb (op : operation) : string :=
  match op with
  | CreatePkg => "POST"
  | ApplyPkg => "POST"
  | ListStacks => "GET"
  | CreateStack => "POST"
  | ReadStack => "GET"
  | UpdateStack => "PATCH"
  | DeleteStack => "DELETE"
  | ExportStack => "DELETE"
  end.

Definition sent_path (lb : loc) (h : heap) (op : operation) (req : value)
  : string :=
  match op with
  | CreatePkg => "/api/v2/packages"
  | ApplyPkg => "/api/v2/packages/apply"
  | ListStacks =>
      "/api/v2/packages/stacks" +:+
      queryString lb h req ["orgID"; "name"; "stackID"]
  | CreateStack => "/api/v2/packages/stacks"
  | ReadStack | UpdateStack =>
      "/api/v2/packages/stacks/" +:+ ToString (field h req "stack_id")
  | DeleteStack =>
      "/api/v2/packages/stacks/" +:+ ToString (field h req "stack_id") +:+
      queryString lb h req ["orgID"]
  | ExportStack =>
      "/api/v2/packages/stacks/" +:+ ToString (field h req "stack_id") +:+
      "/export" +:+ queryString lb h req ["orgID"]
  end.

Definition sent_mediaType (op : operation) : option string :=
  match op with
  | CreatePkg | ApplyPkg | CreateStack | UpdateStack => Some "application/json"
  | ListStacks | ReadStack | DeleteStack | ExportStack => None
  end.

(** The methods that read [request.stack_id]. *)
Definition path_param (op : operation) : bool :=
  match op with
  | ReadStack | UpdateStack | DeleteStack | ExportStack => true
  | _ => false
  end.

(** What a method puts after the id. *)
Definition after_stack_id (lb : loc) (h : heap) (op : operation)
    (req : value) : string :=
  match op with
  | ExportStack => "/export" +:+ query_part lb h op req
  | _ => query_part lb h op req
  end.

(** The call of [base.request] with those arguments, put on record. *)
Definition the_call (lb : loc) (h : heap) (op : operation) (req opts : value)
  : call :=
  let path := sent_path lb h op req in
  Call lb (sent_verb op) path req opts (sent_mediaType op)
       (request lb (sent_verb op) path req opts (sent_mediaType op) h).1.

Definition heap_after (lb : loc) (h : heap) (op : operation) (req opts : value)
  : heap :=
  (request lb (sent_verb op) (sent_path lb h op req) req opts
     (sent_mediaType op) h).2.

Definition performed (lb : loc) (op : operation) (req opts : value)
    (w : world) : completion Promise * world :=
  let c := the_call lb (w_heap w) op req opts in
  (Normal (c_result c),
   World (heap_after lb (w_heap w) op req opts) (w_calls w ++ [c])).
End Run.

(** ** The instance and its APIBase *)

(** What APIBase may do to the heap during [request]: change its own
    object, and make new ones. *)
Definition transport_frame (B : APIBase) : Prop :=
  ∀ lb method path req opts mediaType h l,
    l ≠ lb → is_Some (h !! l) →
    (request lb method path req opts mediaType h).2 !! l = h !! l.

(** An object the caller had before the call. *)
Definition caller_supplied (w : world) (v : value) : Prop :=
  ∃ l, v = VObject l ∧ l ∈ dom (w_heap w).

(** The APIBase of an instance is borrowed: whatever instance the
    constructor returns, its [base] is an object the caller handed in. *)
Definition base_borrowed (B : APIBase) (influxDB : value) (w : world) : Prop :=
  ∀ this w',
    PackagesAPI.constructor influxDB w = (Normal this, w') →
    caller_supplied w (field (w_heap w') this "base").

(** ** The shape of a URL *)

(** The part of a URL before its first [?], and the part after it. *)
Fixpoint url_path (u : string) : string :=
  match u with
  | EmptyString => EmptyString
  | String c u' => if Ascii.eqb c "?" then EmptyString else String c (url_path u')
  end.

Fixpoint url_query (u : string) : option string :=
  match u with
  | EmptyString => None
  | String c u' => if Ascii.eqb c "?" then Some u' else url_query u'
  end.

Fixpoint no_question (s : string) : bool :=
  match s with
  | EmptyString => true
  | String c s' => negb (Ascii.eqb c "?") && no_question s'
  end.

(** The number of [/] in a string: the separators of path segments. *)
Fixpoint slashes (s : string) : nat :=
  match s with
  | EmptyString => 0
  | String c s' => (if Ascii.eqb c "/" then 1 else 0) + slashes s'
  end.

(** ** A small world to run the methods in *)

Module Demo.

(** The server answers a read and refuses the rest. *)
Definition server (m : SpecBase.wire) : Promise :=
  if bool_decide (SpecBase.wire_method m = "GET")
  then Resolves (VString (SpecBase.wire_url m))
  else Rejects (VString "405").

Definition B : APIBase := SpecBase.base server.

Definition instance : loc := 1%positive.
Definition apibase : loc := 2%positive.
Definition req : loc := 3%positive.
Definition bare : loc := 4%positive.
Definition listing : loc := 5%positive.
Definition odd : loc := 6%positive.
Definition spare : loc := 9%positive.

(** An instance with its APIBase, a request [{stack_id: "abc", orgID: "o1"}],
    a request without fields, a filter with two of its three fields, and a
    request whose id has reserved characters. *)
Definition objects : heap :=
  <[instance := {["base" := VObject apibase]}]>
  (<[apibase := {["influxDB" := VNull]}]>
  (<[req := <["stack_id" := VString "abc"]> {["orgID" := VString "o1"]}]>
  (<[bare := ∅]>
  (<[listing := <["orgID" := VString "o1"]> {["name" := VString "n1"]}]>
  (<[odd := {["stack_id" := VString "a/b?c=d"]}]> ∅))))).

(** What a caller holds before it makes an instance: the connection. *)
Definition connection : loc := 1%positive.
Definition before : world :=
  World {[connection := {["transport" := VNull]}]} [].

End Demo.

(** ** A caller with a connection *)

Module Caller.

Definition connection : loc := 1%positive.
Definition transport : loc := 2%positive.

(** What the caller holds before it makes an instance: the connection
    handle, [{transport: ...}], and the transport of that connection. *)
Definition before : world :=
  World (<[connection := {["transport" := VObject transport]}]>
           {[transport := ∅]}) [].

End Caller.

(** ** Series of calls, and assumptions on APIBase *)

(** What the constructor of APIBase may do to the heap: change its own
    object, which stays, and make new ones. *)
Definition init_frame (B : APIBase) : Prop :=
  ∀ lb influxDB h l,
    is_Some (h !! l) →
    is_Some ((init lb influxDB h).2 !! l) ∧
    (l ≠ lb → (init lb influxDB h).2 !! l = h !! l).

(** An APIBase whose [request] leaves the heap as it is. *)
Definition read_only (B : APIBase) : Prop :=
  ∀ lb method path req opts mediaType h,
    (request lb method path req opts mediaType h).2 = h.

(** A series of invocations on request objects. *)
Definition as_requests (l : list (operation * loc * value))
  : list (operation * value * value) :=
  map (λ x, (x.1.1, VObject x.1.2, x.2)) l.

(** What a call says, the URL and the result apart. *)
Definition signature_of (c : call)
  : string * value * value * option string :=
  (c_method c, c_request c, c_options c, c_mediaType c).

Definition expected_signature (x : operation * loc * value)
  : string * value * value * option string :=
  (sent_verb x.1.1, VObject x.1.2, x.2, sent_mediaType x.1.1).

(** * Lemmas *)

(** ** Strings *)

Lemma app_cons c s t : String c s +:+ t = String c (s +:+ t).
Proof. reflexivity. Qed.

Lemma app_nil_l (t : string) : "" +:+ t = t.
Proof. reflexivity. Qed.

Lemma app_nil_r (s : string) : s +:+ "" = s.
Proof. induction s as [|c s IH]; [done|]. by rewrite app_cons, IH. Qed.

Lemma app_assoc_s (s t u : string) : (s +:+ t) +:+ u = s +:+ (t +:+ u).
Proof. induction s as [|c s IH]; [done|]. by rewrite !app_cons, IH. Qed.

Ltac norm_app :=
  repeat (rewrite app_assoc_s || rewrite app_cons ||
          rewrite app_nil_l || rewrite app_nil_r).

Lemma url_path_app a b :
  no_question a = true → url_path (a +:+ b) = a +:+ url_path b.
Proof.
  induction a as [|c a IH]; [done|]. simpl. rewrite ?app_cons. simpl.
  destruct (Ascii.eqb c "?"); [done|]. simpl. intros Ha. by rewrite IH.
Qed.

Lemma url_query_app a b :
  no_question a = true → url_query (a +:+ b) = url_query b.
Proof.
  induction a as [|c a IH]; [done|]. simpl. rewrite ?app_cons. simpl.
  destruct (Ascii.eqb c "?"); [done|]. simpl. intros Ha. by rewrite IH.
Qed.

Lemma slashes_app a b : slashes (a +:+ b) = slashes a + slashes b.
Proof.
  induction a as [|c a IH]; [done|]. rewrite app_cons. simpl. rewrite IH. lia.
Qed.

(** ** Running a method *)

Ltac run_method :=
  unfold invoke, PackagesAPI.createPkg, PackagesAPI.applyPkg,
    PackagesAPI.listStacks, PackagesAPI.createStack, PackagesAPI.readStack,
    PackagesAPI.updateStack, PackagesAPI.deleteStack, PackagesAPI.exportStack,
    bind, read, call_request, call_queryString; simpl.

Section RunLemmas.
Context {B : APIBase}.

Lemma get_stack_id h req v :
  get h req "stack_id" = Normal v → field h req "stack_id" = v.
Proof. unfold field. by intros ->. Qed.

(** A method whose reads succeed makes its one call and returns what the
    call returned. *)
Lemma invoke_run op h cs lthis lb req opts :
  is_instance h lthis lb →
  (path_param op = true → ∃ v, get h req "stack_id" = Normal v) →
  invoke op (VObject lthis) req opts (World h cs)
  = performed lb op req opts (World h cs).
Proof.
  intros Hb Hid. unfold is_instance in Hb.
  unfold performed, the_call, heap_after.
  destruct op; run_method; rewrite Hb; simpl;
    try (destruct (Hid eq_refl) as [v Hv]; rewrite Hv, (get_stack_id _ _ _ Hv));
    simpl; by destruct (request _ _ _ _ _ _ _).
Qed.

(** With an object for a request every read succeeds. *)
Lemma invoke_run_object op h cs lthis lb lr opts :
  is_instance h lthis lb →
  invoke op (VObject lthis) (VObject lr) opts (World h cs)
  = performed lb op (VObject lr) opts (World h cs).
Proof. intros Hb. apply invoke_run; [done|]. intros _. by eexists. Qed.

(** A failed read of [request.stack_id] ends the method before any call. *)
Lemma invoke_throw op h cs lthis lb req opts e :
  is_instance h lthis lb →
  path_param op = true →
  get h req "stack_id" = Throw e →
  invoke op (VObject lthis) req opts (World h cs) = (Throw e, World h cs).
Proof.
  intros Hb Hp He. unfold is_instance in Hb.
  destruct op; try discriminate Hp; run_method; by rewrite Hb, He.
Qed.

Lemma sent_verb_contract op : sent_verb op = contract_verb op.
Proof. by destruct op. Qed.

Lemma sent_path_contract lb h op req sid :
  (path_param op = true → field h req "stack_id" = VString sid) →
  sent_path lb h op req = contract_path op sid +:+ query_part lb h op req.
Proof.
  intros Hs. unfold query_part.
  destruct op; simpl; try rewrite (Hs eq_refl); simpl; by norm_app.
Qed.

Lemma sent_path_stack_id lb h op req sid :
  path_param op = true →
  field h req "stack_id" = VString sid →
  sent_path lb h op req
  = "/api/v2/packages/stacks/" +:+ sid +:+ after_stack_id lb h op req.
Proof.
  intros Hp Hs. unfold after_stack_id, query_part.
  destruct op; try discriminate Hp; simpl; rewrite Hs; simpl; by norm_app.
Qed.

(** ** The constructor *)

(** [new] makes two objects, the instance and then its APIBase, neither of
    them one the caller had; the field is assigned once APIBase's own
    constructor has returned, and not at all when that one throws. *)
Lemma constructor_run influxDB h cs :
  let lthis := fresh (dom h) in
  let lb := fresh (dom (<[lthis := ∅]> h)) in
  let r := init lb influxDB (<[lb := ∅]> (<[lthis := ∅]> h)) in
  (lthis ∉ dom h) ∧ (lb ∉ dom h) ∧ lb ≠ lthis ∧
  PackagesAPI.constructor influxDB (World h cs)
  = match r.1 with
    | Normal _ =>
        (Normal (VObject lthis),
         World (<[lthis := <["base" := VObject lb]> (default ∅ (r.2 !! lthis))]> r.2) cs)
    | Throw e => (Throw e, World r.2 cs)
    end.
Proof.
  intros lthis lb r.
  assert (lthis ∉ dom h) as Hthis by apply is_fresh.
  assert (lb ∉ dom (<[lthis := ∅]> h)) as Hb by apply is_fresh.
  rewrite dom_insert_L in Hb.
  repeat split; [done|set_solver|set_solver|].
  unfold PackagesAPI.constructor, new_APIBase, call_init, bind, alloc, write, ret.
  simpl. fold lthis. fold lb. fold r. by destruct r as [[[]|e] h3].
Qed.

Lemma constructed_instance influxDB h cs this w1 :
  PackagesAPI.constructor influxDB (World h cs) = (Normal this, w1) →
  ∃ lthis lb,
    this = VObject lthis ∧ (lthis ∉ dom h) ∧ (lb ∉ dom h) ∧ lb ≠ lthis ∧
    is_instance (w_heap w1) lthis lb ∧ w_calls w1 = cs.
Proof.
  destruct (constructor_run influxDB h cs) as (Hthis & Hb & Hne & E).
  rewrite E. destruct (init _ _ _) as [[[]|e] h3]; simpl; [|done].
  intros [= <- <-]. do 2 eexists. repeat split; try done.
  unfold is_instance. simpl. rewrite lookup_insert_eq. simpl.
  by rewrite lookup_insert_eq.
Qed.
End RunLemmas.

(** ** The query string of the specification *)

Section SpecQuery.
Import SpecBase.

Lemma pair_of_string h req key s :
  field h req key = VString s →
  pair_of h req key = Some (uri_encode key +:+ "=" +:+ uri_encode s).
Proof. unfold pair_of. by intros ->. Qed.

Lemma pair_of_absent h req key :
  present (field h req key) = false → pair_of h req key = None.
Proof. unfold pair_of. by intros ->. Qed.

Lemma queryString_orgID lb h req org :
  field h req "orgID" = VString org →
  SpecBase.queryString_spec lb h req ["orgID"] = "?orgID=" +:+ uri_encode org.
Proof.
  intros Ho. unfold SpecBase.queryString_spec. simpl.
  by rewrite (pair_of_string _ _ _ _ Ho).
Qed.

Lemma queryString_filter lb h req org :
  field h req "orgID" = VString org →
  SpecBase.queryString_spec lb h req ["orgID"; "name"; "stackID"]
  = "?orgID=" +:+ uri_encode org +:+
    String.concat ""
      (omap (λ key, (λ kv, "&" +:+ kv) <$> pair_of h req key) ["name"; "stackID"]).
Proof.
  intros Ho. unfold SpecBase.queryString_spec. simpl.
  rewrite (pair_of_string _ _ _ _ Ho).
  destruct (pair_of h req "name"), (pair_of h req "stackID"); simpl;
    by norm_app.
Qed.

(** Only the named fields count. *)
Lemma queryString_agree lb1 lb2 h1 h2 req1 req2 params :
  (∀ f, f ∈ params → field h2 req2 f = field h1 req1 f) →
  SpecBase.queryString_spec lb2 h2 req2 params = SpecBase.queryString_spec lb1 h1 req1 params.
Proof.
  intros Hf. unfold SpecBase.queryString_spec.
  assert (omap (pair_of h2 req2) params = omap (pair_of h1 req1) params) as ->;
    [|done].
  induction params as [|k ps IH]; [done|].
  assert (pair_of h2 req2 k = pair_of h1 req1 k) as Hk.
  { unfold pair_of. rewrite (Hf k); [done|]. by left. }
  cbn [omap list_omap]. fold (omap (pair_of h2 req2) ps).
  fold (omap (pair_of h1 req1) ps).
  rewrite Hk, IH; [done|]. intros f Hin. apply Hf. by right.
Qed.

Lemma SpecBase_frame server : transport_frame (SpecBase.base server).
Proof. by intros lb method path req opts mediaType h l _ _. Qed.
End SpecQuery.

(** ** The field [base] across calls *)

Section Frame.
Context {B : APIBase}.
Hypothesis frame : transport_frame B.

Lemma instance_allocated h lthis lb : is_instance h lthis lb → is_Some (h !! lthis).
Proof. unfold is_instance. destruct (h !! lthis); [eauto|done]. Qed.

Lemma is_instance_lookup h h' lthis lb :
  h' !! lthis = h !! lthis → is_instance h lthis lb → is_instance h' lthis lb.
Proof. unfold is_instance. by intros ->. Qed.

(** No method assigns [this.base]. *)
Lemma invoke_keeps_base op req opts w lthis lb :
  lthis ≠ lb →
  is_instance (w_heap w) lthis lb →
  is_instance (w_heap (invoke op (VObject lthis) req opts w).2) lthis lb.
Proof.
  intros Hne Hb. destruct w as [h cs]. simpl in Hb.
  destruct (path_param op) eqn:Hp.
  - destruct (get h req "stack_id") as [v|e] eqn:Hg.
    + rewrite (invoke_run op h cs lthis lb req opts Hb) by eauto.
      simpl. eapply is_instance_lookup; [|done].
      apply frame; [done|]. by eapply instance_allocated.
    + by rewrite (invoke_throw op h cs lthis lb req opts e Hb Hp Hg).
  - rewrite (invoke_run op h cs lthis lb req opts Hb) by congruence.
    simpl. eapply is_instance_lookup; [|done].
    apply frame; [done|]. by eapply instance_allocated.
Qed.

Lemma invoke_all_keeps_base calls w lthis lb :
  lthis ≠ lb →
  is_instance (w_heap w) lthis lb →
  is_instance (w_heap (invoke_all (VObject lthis) calls w).2) lthis lb.
Proof.
  intros Hne. revert w.
  induction calls as [|[[op req] opts] calls IH]; intros w Hb; [done|].
  simpl. unfold bind at 1.
  pose proof (invoke_keeps_base op req opts w lthis lb Hne Hb) as Hstep.
  destruct (invoke op (VObject lthis) req opts w) as [[p|e] w1]; [|done].
  simpl in Hstep. unfold bind.
  specialize (IH w1 Hstep).
  by destruct (invoke_all (VObject lthis) calls w1) as [[ps|e] w2].
Qed.
End Frame.

(** * The claims *)

(** C1. [exportStack] sends the verb DELETE, which is not GET, to
    [/api/v2/packages/stacks/{stack_id}/export] followed by the query string
    that APIBase builds from the field [orgID] alone, whatever the request;
    with the query string of the specification that is [?orgID=] and the
    encoded organization. *)
Theorem exportStack_sends_DELETE {B : APIBase} (server : SpecBase.wire → Promise)
    (h : heap) (cs : list call) (lthis lb lr : loc) (opts : value)
    (sid org : string) :
  is_instance h lthis lb →
  field h (VObject lr) "stack_id" = VString sid →
  field h (VObject lr) "orgID" = VString org →
  (∃ p h' c,
     PackagesAPI.exportStack (VObject lthis) (VObject lr) opts (World h cs)
     = (Normal p, World h' (cs ++ [c])) ∧
     c = Call lb "DELETE"
           ("/api/v2/packages/stacks/" +:+ sid +:+ "/export" +:+
            queryString lb h (VObject lr) ["orgID"])
           (VObject lr) opts None p ∧
     c_method c ≠ "GET") ∧
  (∃ p,
     @PackagesAPI.exportStack (SpecBase.base server)
       (VObject lthis) (VObject lr) opts (World h cs)
     = (Normal p,
        World h (cs ++ [Call lb "DELETE"
          ("/api/v2/packages/stacks/" +:+ sid +:+ "/export?orgID=" +:+
           SpecBase.uri_encode org)
          (VObject lr) opts None p]))).
Proof.
  intros Hb Hs Ho. split.
  - pose proof (invoke_run_object ExportStack h cs lthis lb lr opts Hb) as E.
    simpl in E. rewrite E. unfold performed, the_call, heap_after. simpl.
    rewrite Hs. simpl. do 3 eexists. split; [reflexivity|]. by split.
  - pose proof (@invoke_run_object (SpecBase.base server)
                  ExportStack h cs lthis lb lr opts Hb) as E.
    simpl in E. rewrite E. unfold performed, the_call, heap_after. simpl.
    rewrite Hs, (queryString_orgID _ _ _ _ Ho). simpl.
    norm_app. eauto.
Qed.

Lemma exportStack_sends_DELETE_witness :
  ∃ p,
    @PackagesAPI.exportStack Demo.B
      (VObject Demo.instance) (VObject Demo.req) VUndefined (World Demo.objects [])
    = (Normal p,
       World Demo.objects [Call Demo.apibase "DELETE"
         "/api/v2/packages/stacks/abc/export?orgID=o1"
         (VObject Demo.req) VUndefined None p]).
Proof.
  exact (proj2 (@exportStack_sends_DELETE Demo.B
           Demo.server Demo.objects [] Demo.instance Demo.apibase Demo.req VUndefined
           "abc" "o1" eq_refl eq_refl eq_refl)).
Defined.

(** C2. For each of the eight methods and each request object whose
    [stack_id], where the method has one, is a string, the verb handed to
    APIBase is the one of the contract table and the URL is the path of the
    table, with the request's [stack_id] in the place of [{stack_id}],
    followed by the query string of the fields the table names. *)
Theorem verb_and_path_match_contract {B : APIBase} (op : operation)
    (h : heap) (cs : list call) (lthis lb lr : loc) (opts : value)
    (sid : string) :
  is_instance h lthis lb →
  (path_param op = true → field h (VObject lr) "stack_id" = VString sid) →
  ∃ p h' c,
    invoke op (VObject lthis) (VObject lr) opts (World h cs)
    = (Normal p, World h' (cs ++ [c])) ∧
    c_method c = contract_verb op ∧
    c_path c = contract_path op sid +:+ query_part lb h op (VObject lr).
Proof.
  intros Hb Hs. rewrite (invoke_run_object op h cs lthis lb lr opts Hb).
  unfold performed. simpl. do 3 eexists. split; [reflexivity|].
  unfold the_call. simpl. split.
  - apply sent_verb_contract.
  - by apply sent_path_contract.
Qed.

Lemma verb_and_path_match_contract_witness :
  ∃ p h' c,
    @invoke Demo.B UpdateStack
      (VObject Demo.instance) (VObject Demo.req) VUndefined (World Demo.objects [])
    = (Normal p, World h' ([] ++ [c])) ∧
    c_method c = "PATCH" ∧
    c_path c = "/api/v2/packages/stacks/abc".
Proof.
  exact (@verb_and_path_match_contract Demo.B UpdateStack
           Demo.objects [] Demo.instance Demo.apibase Demo.req VUndefined "abc"
           eq_refl (λ _, eq_refl)).
Defined.

(** The table, line by line, on the request [{stack_id: "abc", orgID: "o1"}]. *)
Example contract_table_on_a_request :
  map (λ op, (λ c, (c_method c, c_path c)) <$>
             last (w_calls (@invoke Demo.B op (VObject Demo.instance)
                              (VObject Demo.req) VUndefined
                              (World Demo.objects [])).2))
      [CreatePkg; ApplyPkg; ListStacks; CreateStack;
       ReadStack; UpdateStack; DeleteStack; ExportStack]
  = [Some ("POST", "/api/v2/packages");
     Some ("POST", "/api/v2/packages/apply");
     Some ("GET", "/api/v2/packages/stacks?orgID=o1");
     Some ("POST", "/api/v2/packages/stacks");
     Some ("GET", "/api/v2/packages/stacks/abc");
     Some ("PATCH", "/api/v2/packages/stacks/abc");
     Some ("DELETE", "/api/v2/packages/stacks/abc?orgID=o1");
     Some ("DELETE", "/api/v2/packages/stacks/abc/export?orgID=o1")].
Proof. reflexivity. Qed.

(** C3. Whatever the method and the request object, the method makes one
    call of [base.request] and returns the very promise that call returned:
    it resolves exactly when, and with what, that promise resolves, and
    rejects exactly when, and with what, that promise rejects. *)
Theorem result_is_the_transport_s {B : APIBase} (op : operation)
    (h : heap) (cs : list call) (lthis lb lr : loc) (opts : value) :
  is_instance h lthis lb →
  ∃ p h' c,
    invoke op (VObject lthis) (VObject lr) opts (World h cs)
    = (Normal p, World h' (cs ++ [c])) ∧
    c_request c = VObject lr ∧ c_options c = opts ∧
    c_result c = (request lb (c_method c) (c_path c) (c_request c)
                    (c_options c) (c_mediaType c) h).1 ∧
    p = c_result c ∧
    (∀ v, resolves_with p v ↔ resolves_with (c_result c) v) ∧
    (∀ r, rejects_with p r ↔ rejects_with (c_result c) r).
Proof.
  intros Hb. rewrite (invoke_run_object op h cs lthis lb lr opts Hb).
  unfold performed. simpl. do 3 eexists. split; [reflexivity|].
  by repeat split.
Qed.

Lemma result_is_the_transport_s_witness :
  ∃ p h' c,
    @invoke Demo.B DeleteStack
      (VObject Demo.instance) (VObject Demo.req) VNull (World Demo.objects [])
    = (Normal p, World h' ([] ++ [c])) ∧
    c_request c = VObject Demo.req ∧ c_options c = VNull ∧
    c_result c = (@request Demo.B Demo.apibase
                    (c_method c) (c_path c) (c_request c)
                    (c_options c) (c_mediaType c) Demo.objects).1 ∧
    p = c_result c ∧
    (∀ v, resolves_with p v ↔ resolves_with (c_result c) v) ∧
    (∀ r, rejects_with p r ↔ rejects_with (c_result c) r).
Proof.
  exact (@result_is_the_transport_s Demo.B DeleteStack
           Demo.objects [] Demo.instance Demo.apibase Demo.req VNull eq_refl).
Defined.

(** A rejection of the transport comes out as it is, and so does an answer. *)
Example deleteStack_rejected :
  (@PackagesAPI.deleteStack Demo.B
     (VObject Demo.instance) (VObject Demo.req) VUndefined
     (World Demo.objects [])).1
  = Normal (Rejects (VString "405")).
Proof. reflexivity. Qed.

Example readStack_resolved :
  (@PackagesAPI.readStack Demo.B
     (VObject Demo.instance) (VObject Demo.req) VUndefined
     (World Demo.objects [])).1
  = Normal (Resolves (VString "/api/v2/packages/stacks/abc")).
Proof. reflexivity. Qed.

(** C4. With the query string of the specification, [listStacks] asks for
    the fields [orgID], [name] and [stackID], in that order: a request that
    only has [orgID] gives [?orgID=...] and no [name] or [stackID]; one that
    has all three gives the three in that order; and two requests that agree
    on these three fields give the same URL, whatever else they hold. *)
Theorem listStacks_query_string (server : SpecBase.wire → Promise)
    (h : heap) (cs : list call) (lthis lb lr : loc) (opts : value)
    (org : string) :
  is_instance h lthis lb →
  field h (VObject lr) "orgID" = VString org →
  ∃ p c,
    @PackagesAPI.listStacks (SpecBase.base server)
      (VObject lthis) (VObject lr) opts (World h cs)
    = (Normal p, World h (cs ++ [c])) ∧
    c_path c = "/api/v2/packages/stacks" +:+
               SpecBase.queryString_spec lb h (VObject lr) ["orgID"; "name"; "stackID"] ∧
    (field h (VObject lr) "name" = VUndefined →
     field h (VObject lr) "stackID" = VUndefined →
     c_path c = "/api/v2/packages/stacks?orgID=" +:+ SpecBase.uri_encode org) ∧
    (∀ n s,
       field h (VObject lr) "name" = VString n →
       field h (VObject lr) "stackID" = VString s →
       c_path c = "/api/v2/packages/stacks?orgID=" +:+ SpecBase.uri_encode org +:+
                  "&name=" +:+ SpecBase.uri_encode n +:+
                  "&stackID=" +:+ SpecBase.uri_encode s) ∧
    (∀ h2 cs2 lthis2 lb2 lr2 opts2,
       is_instance h2 lthis2 lb2 →
       (∀ f, f ∈ ["orgID"; "name"; "stackID"] →
             field h2 (VObject lr2) f = field h (VObject lr) f) →
       ∃ p2 c2,
         @PackagesAPI.listStacks (SpecBase.base server)
           (VObject lthis2) (VObject lr2) opts2 (World h2 cs2)
         = (Normal p2, World h2 (cs2 ++ [c2])) ∧
         c_path c2 = c_path c).
Proof.
  intros Hb Ho.
  assert (∀ h2 cs2 lthis2 lb2 lr2 opts2, is_instance h2 lthis2 lb2 →
    ∃ p2 c2,
      @PackagesAPI.listStacks (SpecBase.base server)
        (VObject lthis2) (VObject lr2) opts2 (World h2 cs2)
      = (Normal p2, World h2 (cs2 ++ [c2])) ∧
      c_path c2 = "/api/v2/packages/stacks" +:+
        SpecBase.queryString_spec lb2 h2 (VObject lr2) ["orgID"; "name"; "stackID"])
    as Hrun.
  { intros h2 cs2 lthis2 lb2 lr2 opts2 Hb2.
    pose proof (@invoke_run_object (SpecBase.base server)
                  ListStacks h2 cs2 lthis2 lb2 lr2 opts2 Hb2) as E.
    simpl in E. rewrite E. unfold performed. simpl. by do 2 eexists. }
  destruct (Hrun h cs lthis lb lr opts Hb) as (p & c & E & Hc).
  exists p, c. split; [done|]. split; [done|]. rewrite Hc.
  rewrite (queryString_filter _ _ _ _ Ho). repeat split.
  - intros Hn Hs. simpl.
    rewrite !pair_of_absent by (by rewrite ?Hn, ?Hs). simpl.
    by norm_app.
  - intros n s Hn Hs. simpl.
    rewrite (pair_of_string _ _ _ _ Hn), (pair_of_string _ _ _ _ Hs). simpl.
    by norm_app.
  - intros h2 cs2 lthis2 lb2 lr2 opts2 Hb2 Hf.
    destruct (Hrun h2 cs2 lthis2 lb2 lr2 opts2 Hb2) as (p2 & c2 & E2 & Hc2).
    exists p2, c2. split; [done|]. rewrite Hc2.
    rewrite (queryString_agree lb lb2 h h2 (VObject lr) (VObject lr2) _ Hf).
    by rewrite (queryString_filter _ _ _ _ Ho).
Qed.

Lemma listStacks_query_string_witness :
  ∃ p c,
    @PackagesAPI.listStacks Demo.B
      (VObject Demo.instance) (VObject Demo.listing) VUndefined (World Demo.objects [])
    = (Normal p, World Demo.objects ([] ++ [c])) ∧
    c_path c = "/api/v2/packages/stacks" +:+
               SpecBase.queryString_spec Demo.apibase Demo.objects (VObject Demo.listing)
                 ["orgID"; "name"; "stackID"].
Proof.
  destruct (listStacks_query_string Demo.server Demo.objects [] Demo.instance Demo.apibase
              Demo.listing VUndefined "o1" eq_refl eq_refl)
    as (p & c & E & Hc & _).
  exists p, c. by split.
Defined.

(** [listStacks({orgID: "o1"})] *)
Example listStacks_orgID_only :
  url_sent
    (@PackagesAPI.listStacks Demo.B
       (VObject Demo.instance) (VObject Demo.spare) VUndefined
       (World (<[Demo.spare :=
                   ListStacksRequest_object
                     {| ls_orgID := "o1"; ls_name := None; ls_stackID := None |}]>
                 Demo.objects) []))
  = Some "/api/v2/packages/stacks?orgID=o1".
Proof. reflexivity. Qed.

(** [listStacks({orgID: "o1", name: "n1", stackID: "s1"})] *)
Example listStacks_all_three :
  url_sent
    (@PackagesAPI.listStacks Demo.B
       (VObject Demo.instance) (VObject Demo.spare) VUndefined
       (World (<[Demo.spare :=
                   ListStacksRequest_object
                     {| ls_orgID := "o1"; ls_name := Some "n1";
                        ls_stackID := Some "s1" |}]>
                 Demo.objects) []))
  = Some "/api/v2/packages/stacks?orgID=o1&name=n1&stackID=s1".
Proof. reflexivity. Qed.

(** A field that is not named stays out, and what is named is encoded. *)
Example listStacks_other_fields :
  url_sent
    (@PackagesAPI.listStacks Demo.B
       (VObject Demo.instance) (VObject Demo.spare) VUndefined
       (World (<[Demo.spare :=
                   <["body" := VString "b"]>
                   (<["stack_id" := VString "s"]>
                   (<["stackID" := VString "a b"]>
                     {["orgID" := VString "o/1"]}))]>
                 Demo.objects) []))
  = Some "/api/v2/packages/stacks?orgID=o%2F1&stackID=a%20b".
Proof. reflexivity. Qed.

(** C5. With APIBase as the specification describes it, [deleteStack] of a
    DeleteStackRequest whose [stack_id] is "abc" and whose [orgID] is "o1"
    makes one call, for [/api/v2/packages/stacks/abc?orgID=o1], and the
    message that goes out has no body (and no content type). *)
Theorem deleteStack_abc_o1 (server : SpecBase.wire → Promise)
    (h : heap) (cs : list call) (lthis lb lr : loc) (opts : value)
    (r : DeleteStackRequest) :
  is_instance h lthis lb →
  h !! lr = Some (DeleteStackRequest_object r) →
  stack_id r = "abc" →
  orgID r = "o1" →
  let sent :=
    SpecBase.Wire "DELETE" "/api/v2/packages/stacks/abc?orgID=o1" None None opts in
  @PackagesAPI.deleteStack (SpecBase.base server)
    (VObject lthis) (VObject lr) opts (World h cs)
  = (Normal (server sent),
     World h (cs ++ [Call lb "DELETE" "/api/v2/packages/stacks/abc?orgID=o1"
                       (VObject lr) opts None (server sent)])).
Proof.
  intros Hb Hr Hs Ho sent.
  pose proof (@invoke_run_object (SpecBase.base server)
                DeleteStack h cs lthis lb lr opts Hb) as E.
  simpl in E. rewrite E. clear E.
  assert (∀ f, field h (VObject lr) f
               = default VUndefined (DeleteStackRequest_object r !! f)) as Hf.
  { intros f. unfold field. simpl. by rewrite Hr. }
  unfold performed, the_call, heap_after. simpl.
  unfold SpecBase.request_spec, SpecBase.body_of, SpecBase.queryString_spec. simpl.
  unfold SpecBase.pair_of. rewrite !Hf.
  unfold DeleteStackRequest_object. rewrite Hs, Ho. reflexivity.
Qed.

Lemma deleteStack_abc_o1_witness :
  @PackagesAPI.deleteStack Demo.B
    (VObject Demo.instance) (VObject Demo.req) VUndefined (World Demo.objects [])
  = (Normal (Rejects (VString "405")),
     World Demo.objects [Call Demo.apibase "DELETE" "/api/v2/packages/stacks/abc?orgID=o1"
                     (VObject Demo.req) VUndefined None
                     (Rejects (VString "405"))]).
Proof.
  exact (deleteStack_abc_o1 Demo.server Demo.objects [] Demo.instance Demo.apibase
           Demo.req VUndefined {| stack_id := "abc"; orgID := "o1" |}
           eq_refl eq_refl eq_refl eq_refl).
Defined.

(** C6. The four operations with a body, [createPkg], [applyPkg],
    [createStack] and [updateStack], hand the content type
    [application/json] to APIBase; [listStacks], [readStack], [deleteStack]
    and [exportStack] hand it no content type. *)
Theorem content_type_only_with_body {B : APIBase} (op : operation)
    (h : heap) (cs : list call) (lthis lb lr : loc) (opts : value) :
  is_instance h lthis lb →
  ∃ p h' c,
    invoke op (VObject lthis) (VObject lr) opts (World h cs)
    = (Normal p, World h' (cs ++ [c])) ∧
    (op ∈ [CreatePkg; ApplyPkg; CreateStack; UpdateStack] →
     c_mediaType c = Some "application/json") ∧
    (op ∈ [ListStacks; ReadStack; DeleteStack; ExportStack] →
     c_mediaType c = None) ∧
    (c_mediaType c = Some "application/json" ↔ carries_body op = true).
Proof.
  intros Hb. rewrite (invoke_run_object op h cs lthis lb lr opts Hb).
  unfold performed. simpl. do 3 eexists. split; [reflexivity|].
  unfold the_call. simpl.
  rewrite !elem_of_cons, !elem_of_nil.
  destruct op; simpl; intuition congruence.
Qed.

Lemma content_type_only_with_body_witness :
  ∃ p h' c,
    @invoke Demo.B CreateStack
      (VObject Demo.instance) (VObject Demo.req) VUndefined (World Demo.objects [])
    = (Normal p, World h' ([] ++ [c])) ∧
    c_mediaType c = Some "application/json".
Proof.
  destruct (@content_type_only_with_body Demo.B
              CreateStack Demo.objects [] Demo.instance Demo.apibase Demo.req VUndefined
              eq_refl) as (p & h' & c & E & Hc & _).
  exists p, h', c. split; [exact E|]. apply Hc.
  apply elem_of_cons; right. apply elem_of_cons; right.
  apply elem_of_cons; left. reflexivity.
Defined.

(** The content type of each operation in turn. *)
Example content_types :
  map (λ op, c_mediaType <$>
             last (w_calls (@invoke Demo.B op (VObject Demo.instance)
                              (VObject Demo.req) VUndefined
                              (World Demo.objects [])).2))
      [CreatePkg; ApplyPkg; ListStacks; CreateStack;
       ReadStack; UpdateStack; DeleteStack; ExportStack]
  = [Some (Some "application/json"); Some (Some "application/json");
     Some None; Some (Some "application/json");
     Some None; Some (Some "application/json"); Some None; Some None].
Proof. reflexivity. Qed.

(** A method does one of two things: it throws before anything is done,
    or it makes its one call of [base.request] on the APIBase of the
    instance, and it writes nothing of its own. *)
Lemma invoke_throws_or_performs {B : APIBase} op h cs lthis lb req opts :
  is_instance h lthis lb →
  (∃ e, invoke op (VObject lthis) req opts (World h cs) = (Throw e, World h cs)) ∨
  invoke op (VObject lthis) req opts (World h cs)
  = performed lb op req opts (World h cs).
Proof.
  intros Hb. destruct (path_param op) eqn:Hp.
  - destruct (get h req "stack_id") as [v|e] eqn:Hg.
    + right. apply invoke_run; eauto.
    + left. exists e. by apply (invoke_throw op h cs lthis lb).
  - right. apply invoke_run; [done|congruence].
Qed.

(** C7, as the specification has it, fails: the APIBase of an instance is
    not borrowed.  Here the caller holds a connection handle and its
    transport; the constructor returns an instance, and the APIBase of
    that instance is neither of the two objects the caller had. *)
Lemma base_is_not_borrowed :
  ¬ base_borrowed Demo.B (VObject Caller.connection) Caller.before.
Proof.
  intros Hborrowed.
  remember (@PackagesAPI.constructor Demo.B
              (VObject Caller.connection) Caller.before).2 as w1 eqn:Hw1.
  assert (@PackagesAPI.constructor Demo.B
            (VObject Caller.connection) (World (w_heap Caller.before) [])
          = (Normal (VObject 3%positive), w1)) as E
    by (subst w1; reflexivity).
  clear Hw1.
  destruct (Hborrowed _ _ E) as (l & Hl & Hdom).
  destruct (constructed_instance _ _ _ _ _ E)
    as (lthis & lb & [= <-] & _ & Hfresh & _ & Hi & _).
  unfold field, get in Hl. unfold is_instance in Hi. rewrite Hi in Hl.
  injection Hl as <-. exact (Hfresh Hdom).
Qed.

(** C7, amended.  The APIBase of an instance is made by the constructor of
    the instance, by [new APIBase(influxDB)] on the handle the caller gives:
    it is a new object, none of the caller's, on which the constructor of
    APIBase has run with that handle, and the field [base] of the new
    instance is set to it.  From then on the reference is read-only: after
    any series of calls through the instance (APIBase changing at most its
    own object during [request]) the field refers to the same object, and
    a method neither replaces nor mutates it, for all a method does is
    throw before anything is done or make its one call of [base.request] on
    that object, the heap afterwards being the one that call left.  And
    with the constructor of APIBase the specification describes, there
    always is an instance. *)
Theorem base_made_by_constructor_and_kept {B : APIBase}
    (server : SpecBase.wire → Promise) (influxDB : value)
    (w : world) (this : value) (w1 : world)
    (calls : list (operation * value * value)) :
  transport_frame B →
  PackagesAPI.constructor influxDB w = (Normal this, w1) →
  (∃ lthis lb,
     this = VObject lthis ∧
     (lthis ∉ dom (w_heap w)) ∧ (lb ∉ dom (w_heap w)) ∧
     ¬ caller_supplied w (VObject lb) ∧
     (let r := init lb influxDB (<[lb := ∅]> (<[lthis := ∅]> (w_heap w))) in
      r.1 = Normal () ∧
      w1 = World (<[lthis := <["base" := VObject lb]>
                               (default ∅ (r.2 !! lthis))]> r.2)
                 (w_calls w)) ∧
     is_instance (w_heap w1) lthis lb ∧
     (let w2 := (invoke_all this calls w1).2 in
      is_instance (w_heap w2) lthis lb ∧
      ∀ op req opts,
        (∃ e, invoke op this req opts w2 = (Throw e, w2)) ∨
        invoke op this req opts w2 = performed lb op req opts w2)) ∧
  (∃ this' w1',
     @PackagesAPI.constructor (SpecBase.base server) influxDB w
     = (Normal this', w1')).
Proof.
  intros Hframe E. destruct w as [h cs]. split.
  - destruct (constructor_run influxDB h cs) as (Hthis & Hb & Hne & E0).
    rewrite E0 in E. clear E0.
    set (lthis := fresh (dom h)) in *.
    set (lb := fresh (dom (<[lthis := ∅]> h))) in *.
    destruct (init lb influxDB (<[lb := ∅]> (<[lthis := ∅]> h)))
      as [[[]|e] h3] eqn:Hinit; simpl in E; [|done].
    injection E as <- <-.
    assert (is_instance
              (<[lthis := <["base" := VObject lb]> (default ∅ (h3 !! lthis))]> h3)
              lthis lb) as Hi.
    { unfold is_instance. rewrite lookup_insert_eq. simpl.
      by rewrite lookup_insert_eq. }
    exists lthis, lb. simpl. rewrite Hinit. simpl.
    split; [done|]. split; [done|]. split; [done|].
    split; [by intros (l & [= <-] & Hdom)|].
    split; [done|]. split; [exact Hi|].
    pose proof (invoke_all_keeps_base Hframe calls
                  (World (<[lthis := <["base" := VObject lb]>
                                        (default ∅ (h3 !! lthis))]> h3) cs)
                  lthis lb ltac:(congruence) Hi) as Hk.
    split; [exact Hk|].
    intros op req opts.
    destruct (invoke_all (VObject lthis) calls _) as [res [h2 cs2]].
    simpl in *. by apply invoke_throws_or_performs.
  - destruct (@constructor_run (SpecBase.base server) influxDB h cs)
      as (_ & _ & _ & E'). rewrite E'. simpl. eauto.
Qed.

Lemma base_made_by_constructor_and_kept_witness :
  ∃ lthis lb,
    (@PackagesAPI.constructor Demo.B (VObject Caller.connection) Caller.before).1
    = Normal (VObject lthis) ∧
    (lb ∉ dom (w_heap Caller.before)) ∧
    (w_heap (@PackagesAPI.constructor Demo.B
               (VObject Caller.connection) Caller.before).2) !! lb
    = Some {["influxDB" := VObject Caller.connection]} ∧
    is_instance
      (w_heap (@invoke_all Demo.B (VObject lthis)
                 [(CreatePkg, VNull, VNull); (ReadStack, VObject lthis, VNull);
                  (DeleteStack, VUndefined, VNull)]
                 (@PackagesAPI.constructor Demo.B
                    (VObject Caller.connection) Caller.before).2).2) lthis lb.
Proof.
  destruct (@base_made_by_constructor_and_kept Demo.B Demo.server
              (VObject Caller.connection) Caller.before
              (VObject 3%positive)
              (@PackagesAPI.constructor Demo.B
                 (VObject Caller.connection) Caller.before).2
              [(CreatePkg, VNull, VNull);
               (ReadStack, VObject 3%positive, VNull);
               (DeleteStack, VUndefined, VNull)]
              (SpecBase_frame Demo.server) eq_refl)
    as [(lthis & lb & E & _ & Hb & _ & [_ Hw] & Hi & Hk & _) _].
  injection E as <-. exists 3%positive, lb.
  split; [reflexivity|]. split; [exact Hb|]. split; [|exact Hk].
  unfold is_instance in Hi. vm_compute in Hi. injection Hi as <-.
  reflexivity.
Defined.

(** C8. A method with a [stack_id] in its path does not look at it: on a
    request object without the field it does not throw; it makes its one
    call all the same, with ["undefined"] where the id should be, and
    returns the promise of that call.  And on a request object each of the
    eight methods returns normally. *)
Theorem absent_stack_id_is_interpolated {B : APIBase} (op : operation)
    (h : heap) (cs : list call) (lthis lb lr : loc) (o : gmap string value)
    (opts : value) :
  is_instance h lthis lb →
  h !! lr = Some o →
  o !! "stack_id" = None →
  path_param op = true →
  (∃ h' c,
     invoke op (VObject lthis) (VObject lr) opts (World h cs)
     = (Normal (c_result c), World h' (cs ++ [c])) ∧
     c_path c = contract_path op "undefined" +:+ query_part lb h op (VObject lr) ∧
     c_result c = (request lb (c_method c) (c_path c) (VObject lr) opts
                     (c_mediaType c) h).1) ∧
  (∀ op', ∃ p w',
     invoke op' (VObject lthis) (VObject lr) opts (World h cs) = (Normal p, w')).
Proof.
  intros Hb Hr Ho Hp. split.
  - rewrite (invoke_run_object op h cs lthis lb lr opts Hb).
    unfold performed. simpl.
    exists (heap_after lb h op (VObject lr) opts), (the_call lb h op (VObject lr) opts).
    split; [reflexivity|].
    unfold the_call. simpl. split; [|done].
    assert (field h (VObject lr) "stack_id" = VUndefined) as Hf.
    { unfold field. simpl. by rewrite Hr; simpl; rewrite Ho. }
    destruct op; try discriminate Hp; unfold query_part; simpl; rewrite Hf;
      simpl; by norm_app.
  - intros op'. rewrite (invoke_run_object op' h cs lthis lb lr opts Hb).
    unfold performed. by do 2 eexists.
Qed.

Lemma absent_stack_id_is_interpolated_witness :
  ∃ h' c,
    @invoke Demo.B ReadStack
      (VObject Demo.instance) (VObject Demo.bare) VUndefined (World Demo.objects [])
    = (Normal (c_result c), World h' ([] ++ [c])) ∧
    c_path c = "/api/v2/packages/stacks/undefined".
Proof.
  destruct (@absent_stack_id_is_interpolated Demo.B
              ReadStack Demo.objects [] Demo.instance Demo.apibase Demo.bare ∅ VUndefined
              eq_refl eq_refl eq_refl eq_refl)
    as [(h' & c & E & Hc & _) _].
  exists h', c. split; [exact E|exact Hc].
Defined.

(** Without a request there is nothing to read the id from. *)
Example readStack_without_request :
  @PackagesAPI.readStack Demo.B
    (VObject Demo.instance) VUndefined VUndefined (World Demo.objects [])
  = (Throw (TypeError "Cannot read properties of undefined (reading 'stack_id')"),
     World Demo.objects []).
Proof. reflexivity. Qed.

(** C9. One invocation on a request object adds one call of
    [base.request] to the record, for that very object; the heap it leaves
    is the heap that call left, the method writing nothing itself; so,
    APIBase keeping to its own object, the request object is afterwards
    what it was before. *)
Theorem one_call_and_request_untouched {B : APIBase} (op : operation)
    (h : heap) (cs : list call) (lthis lb lr : loc) (o : gmap string value)
    (opts : value) :
  transport_frame B →
  is_instance h lthis lb →
  h !! lr = Some o →
  lr ≠ lb →
  ∃ p h' c,
    invoke op (VObject lthis) (VObject lr) opts (World h cs)
    = (Normal p, World h' (cs ++ [c])) ∧
    length (cs ++ [c]) = S (length cs) ∧
    c_request c = VObject lr ∧
    h' = (request lb (c_method c) (c_path c) (VObject lr) opts
            (c_mediaType c) h).2 ∧
    h' !! lr = Some o.
Proof.
  intros Hframe Hb Hr Hne.
  rewrite (invoke_run_object op h cs lthis lb lr opts Hb).
  unfold performed. simpl. do 3 eexists. split; [reflexivity|].
  split; [rewrite length_app; simpl; lia|].
  split; [done|]. split; [done|].
  unfold heap_after. rewrite Hframe; by eauto.
Qed.

Lemma one_call_and_request_untouched_witness :
  ∃ p h' c,
    @invoke Demo.B ExportStack
      (VObject Demo.instance) (VObject Demo.req) VUndefined (World Demo.objects [])
    = (Normal p, World h' ([] ++ [c])) ∧
    h' !! Demo.req
    = Some (<["stack_id" := VString "abc"]> {["orgID" := VString "o1"]}).
Proof.
  destruct (@one_call_and_request_untouched Demo.B
              ExportStack Demo.objects [] Demo.instance Demo.apibase Demo.req
              (<["stack_id" := VString "abc"]> {["orgID" := VString "o1"]})
              VUndefined (SpecBase_frame Demo.server) eq_refl eq_refl
              ltac:(discriminate))
    as (p & h' & c & E & _ & _ & _ & Hr).
  exists p, h', c. split; [exact E|exact Hr].
Defined.

(** C10. A method with a [stack_id] in its path puts the string into the
    URL as it is, between [/api/v2/packages/stacks/] and what follows, with
    nothing encoded.  So each [/] of the id is one more separator in the
    URL, and where the id has a [?] the path of the URL ends there and the
    rest of the id is read as the query. *)
Theorem stack_id_is_interpolated_verbatim {B : APIBase} (op : operation)
    (h : heap) (cs : list call) (lthis lb lr : loc) (opts : value)
    (sid : string) :
  is_instance h lthis lb →
  path_param op = true →
  field h (VObject lr) "stack_id" = VString sid →
  ∃ p h' c,
    invoke op (VObject lthis) (VObject lr) opts (World h cs)
    = (Normal p, World h' (cs ++ [c])) ∧
    c_path c = "/api/v2/packages/stacks/" +:+ sid +:+
               after_stack_id lb h op (VObject lr) ∧
    slashes (c_path c)
    = 5 + slashes sid + slashes (after_stack_id lb h op (VObject lr)) ∧
    (∀ pre post,
       sid = pre +:+ "?" +:+ post →
       no_question pre = true →
       url_path (c_path c) = "/api/v2/packages/stacks/" +:+ pre ∧
       url_query (c_path c)
       = Some (post +:+ after_stack_id lb h op (VObject lr))).
Proof.
  intros Hb Hp Hs. rewrite (invoke_run_object op h cs lthis lb lr opts Hb).
  unfold performed. simpl. do 3 eexists. split; [reflexivity|].
  unfold the_call. simpl. rewrite (sent_path_stack_id _ _ _ _ _ Hp Hs).
  split; [done|]. split.
  - rewrite !slashes_app. simpl. lia.
  - intros pre post -> Hpre.
    rewrite !app_assoc_s, <- (app_assoc_s "/api/v2/packages/stacks/" pre).
    assert (no_question ("/api/v2/packages/stacks/" +:+ pre) = true) as Hq.
    { rewrite !app_cons, app_nil_l. simpl. exact Hpre. }
    rewrite (url_path_app _ _ Hq), (url_query_app _ _ Hq).
    rewrite !app_cons, app_nil_l. simpl. by rewrite app_nil_r.
Qed.

Lemma stack_id_is_interpolated_verbatim_witness :
  ∃ p h' c,
    @invoke Demo.B ReadStack
      (VObject Demo.instance) (VObject Demo.odd) VUndefined (World Demo.objects [])
    = (Normal p, World h' ([] ++ [c])) ∧
    c_path c = "/api/v2/packages/stacks/a/b?c=d" ∧
    slashes (c_path c) = 6 ∧
    url_path (c_path c) = "/api/v2/packages/stacks/a/b" ∧
    url_query (c_path c) = Some "c=d".
Proof.
  destruct (@stack_id_is_interpolated_verbatim Demo.B
              ReadStack Demo.objects [] Demo.instance Demo.apibase Demo.odd VUndefined
              "a/b?c=d" eq_refl eq_refl eq_refl)
    as (p & h' & c & E & Hc & Hn & Hq).
  exists p, h', c. split; [exact E|]. split; [exact Hc|].
  split; [exact Hn|]. exact (Hq "a/b" "c=d" eq_refl eq_refl).
Defined.

(** With the query string of the specification the difference shows: the
    id goes in as it is, the organization encoded. *)
Example deleteStack_reserved_characters :
  url_sent
    (@PackagesAPI.deleteStack Demo.B
       (VObject Demo.instance) (VObject Demo.spare) VUndefined
       (World (<[Demo.spare :=
                   DeleteStackRequest_object
                     {| stack_id := "a/b?c"; orgID := "a/b?c" |}]>
                 Demo.objects) []))
  = Some "/api/v2/packages/stacks/a/b?c?orgID=a%2Fb%3Fc".
Proof. reflexivity. Qed.

(** * Further properties of the class *)

Lemma string_length_app (a b : string) :
  String.length (a +:+ b) = String.length a + String.length b.
Proof. induction a as [|c a IH]; [done|]. rewrite app_cons. simpl. by rewrite IH. Qed.

(** X1. The four methods with a [stack_id] in their path read it from the
    request before anything else is done with it: called with [undefined]
    or [null] for a request they throw a TypeError, no call of
    [base.request] is made and nothing has changed. *)
Theorem no_request_no_call {B : APIBase} (op : operation)
    (h : heap) (cs : list call) (lthis lb : loc) (req opts : value) :
  is_instance h lthis lb →
  path_param op = true →
  req = VUndefined ∨ req = VNull →
  ∃ msg,
    invoke op (VObject lthis) req opts (World h cs)
    = (Throw (TypeError msg), World h cs).
Proof.
  intros Hb Hp [-> | ->]; eexists; by apply (invoke_throw op h cs lthis lb).
Qed.

Lemma no_request_no_call_witness :
  ∃ msg,
    @invoke Demo.B UpdateStack (VObject Demo.instance) VNull VUndefined
      (World Demo.objects [])
    = (Throw (TypeError msg), World Demo.objects []).
Proof.
  exact (@no_request_no_call Demo.B UpdateStack Demo.objects []
           Demo.instance Demo.apibase VNull VUndefined
           eq_refl eq_refl (or_intror eq_refl)).
Defined.

(** X2. [createPkg], [applyPkg], [createStack] and [listStacks] never read
    the request themselves: whatever it is, [undefined] included, they make
    their one call and hand it on as it is.  The URL of the first three is
    the same for every request; [listStacks] leaves the request to
    [queryString]. *)
Theorem request_handed_on_unread {B : APIBase} (op : operation)
    (h : heap) (cs : list call) (lthis lb : loc) (req opts : value) :
  is_instance h lthis lb →
  path_param op = false →
  ∃ p h' c,
    invoke op (VObject lthis) req opts (World h cs)
    = (Normal p, World h' (cs ++ [c])) ∧
    c_request c = req ∧ p = c_result c ∧
    (op ≠ ListStacks → c_path c = contract_path op "") ∧
    (op = ListStacks →
     c_path c = "/api/v2/packages/stacks" +:+
                queryString lb h req ["orgID"; "name"; "stackID"]).
Proof.
  intros Hb Hp. rewrite (invoke_run op h cs lthis lb req opts Hb) by congruence.
  unfold performed. simpl. do 3 eexists. split; [reflexivity|].
  unfold the_call. simpl. repeat split; by destruct op.
Qed.

Lemma request_handed_on_unread_witness :
  ∃ p h' c,
    @invoke Demo.B CreatePkg (VObject Demo.instance) VUndefined VUndefined
      (World Demo.objects [])
    = (Normal p, World h' ([] ++ [c])) ∧
    c_request c = VUndefined ∧ c_path c = "/api/v2/packages".
Proof.
  destruct (@request_handed_on_unread Demo.B CreatePkg Demo.objects []
              Demo.instance Demo.apibase VUndefined VUndefined eq_refl eq_refl)
    as (p & h' & c & E & Hr & _ & Hc & _).
  exists p, h', c. split; [exact E|]. split; [exact Hr|].
  apply Hc. discriminate.
Defined.

(** X3. The id goes into the path as it is and both methods send DELETE:
    [deleteStack] of the id [s/export] makes the call that [exportStack] of
    the id [s] makes, the same verb, the same URL and no content type,
    where the two requests have the same query string. *)
Theorem delete_with_export_suffix_is_export {B : APIBase}
    (h : heap) (cs : list call) (lthis lb lr1 lr2 : loc) (opts : value)
    (sid : string) :
  is_instance h lthis lb →
  field h (VObject lr1) "stack_id" = VString sid →
  field h (VObject lr2) "stack_id" = VString (sid +:+ "/export") →
  queryString lb h (VObject lr2) ["orgID"]
  = queryString lb h (VObject lr1) ["orgID"] →
  ∃ p1 h1 c1 p2 h2 c2,
    PackagesAPI.exportStack (VObject lthis) (VObject lr1) opts (World h cs)
    = (Normal p1, World h1 (cs ++ [c1])) ∧
    PackagesAPI.deleteStack (VObject lthis) (VObject lr2) opts (World h cs)
    = (Normal p2, World h2 (cs ++ [c2])) ∧
    c_method c2 = c_method c1 ∧
    c_path c2 = c_path c1 ∧
    c_mediaType c2 = c_mediaType c1.
Proof.
  intros Hb H1 H2 Hq.
  pose proof (invoke_run_object ExportStack h cs lthis lb lr1 opts Hb) as E1.
  pose proof (invoke_run_object DeleteStack h cs lthis lb lr2 opts Hb) as E2.
  simpl in E1, E2. rewrite E1, E2. unfold performed. simpl.
  do 6 eexists. split; [reflexivity|]. split; [reflexivity|].
  unfold the_call. simpl. rewrite H1, H2, Hq. simpl.
  repeat split. by norm_app.
Qed.

Lemma delete_with_export_suffix_is_export_witness :
  let h := <[Demo.spare := DeleteStackRequest_object
                             {| stack_id := "abc/export"; orgID := "o1" |}]>
             Demo.objects in
  ∃ p1 h1 c1 p2 h2 c2,
    @PackagesAPI.exportStack Demo.B
      (VObject Demo.instance) (VObject Demo.req) VUndefined (World h [])
    = (Normal p1, World h1 ([] ++ [c1])) ∧
    @PackagesAPI.deleteStack Demo.B
      (VObject Demo.instance) (VObject Demo.spare) VUndefined (World h [])
    = (Normal p2, World h2 ([] ++ [c2])) ∧
    c_method c2 = c_method c1 ∧
    c_path c2 = c_path c1 ∧
    c_mediaType c2 = c_mediaType c1.
Proof.
  exact (@delete_with_export_suffix_is_export Demo.B
           (<[Demo.spare := DeleteStackRequest_object
                              {| stack_id := "abc/export"; orgID := "o1" |}]>
              Demo.objects)
           [] Demo.instance Demo.apibase Demo.req Demo.spare VUndefined "abc"
           eq_refl eq_refl eq_refl eq_refl).
Defined.

(** X4. On one and the same request [exportStack] and [deleteStack] send
    the same verb and are told apart by the path alone: the URL of the
    export is the longer by the seven characters of [/export], so the two
    URLs are never the same. *)
Theorem export_and_delete_differ_by_path {B : APIBase}
    (h : heap) (cs : list call) (lthis lb lr : loc) (opts : value) :
  is_instance h lthis lb →
  ∃ p1 h1 c1 p2 h2 c2,
    PackagesAPI.exportStack (VObject lthis) (VObject lr) opts (World h cs)
    = (Normal p1, World h1 (cs ++ [c1])) ∧
    PackagesAPI.deleteStack (VObject lthis) (VObject lr) opts (World h cs)
    = (Normal p2, World h2 (cs ++ [c2])) ∧
    c_method c1 = c_method c2 ∧
    String.length (c_path c1) = 7 + String.length (c_path c2) ∧
    c_path c1 ≠ c_path c2.
Proof.
  intros Hb.
  pose proof (invoke_run_object ExportStack h cs lthis lb lr opts Hb) as E1.
  pose proof (invoke_run_object DeleteStack h cs lthis lb lr opts Hb) as E2.
  simpl in E1, E2. rewrite E1, E2. unfold performed. simpl.
  do 6 eexists. split; [reflexivity|]. split; [reflexivity|].
  unfold the_call. simpl. split; [done|].
  assert (String.length
            ("/api/v2/packages/stacks/" +:+
             ToString (field h (VObject lr) "stack_id") +:+
             "/export" +:+ queryString lb h (VObject lr) ["orgID"])
          = 7 + String.length
                  ("/api/v2/packages/stacks/" +:+
                   ToString (field h (VObject lr) "stack_id") +:+
                   queryString lb h (VObject lr) ["orgID"])) as Hlen.
  { rewrite !string_length_app. simpl. lia. }
  split; [exact Hlen|]. intros Heq. rewrite Heq in Hlen. lia.
Qed.

Lemma export_and_delete_differ_by_path_witness :
  ∃ p1 h1 c1 p2 h2 c2,
    @PackagesAPI.exportStack Demo.B
      (VObject Demo.instance) (VObject Demo.req) VUndefined (World Demo.objects [])
    = (Normal p1, World h1 ([] ++ [c1])) ∧
    @PackagesAPI.deleteStack Demo.B
      (VObject Demo.instance) (VObject Demo.req) VUndefined (World Demo.objects [])
    = (Normal p2, World h2 ([] ++ [c2])) ∧
    c_method c1 = c_method c2 ∧
    String.length (c_path c1) = 7 + String.length (c_path c2) ∧
    c_path c1 ≠ c_path c2.
Proof.
  exact (@export_and_delete_differ_by_path Demo.B Demo.objects []
           Demo.instance Demo.apibase Demo.req VUndefined eq_refl).
Defined.

(** ** Series of calls through one instance *)

Section Series.
Context {B : APIBase}.
Hypothesis frame : transport_frame B.

Lemma performed_keeps_instance op h lthis lb req opts :
  lthis ≠ lb →
  is_instance h lthis lb →
  is_instance (heap_after lb h op req opts) lthis lb.
Proof.
  intros Hne Hb. eapply is_instance_lookup; [|done].
  apply frame; [done|]. by eapply instance_allocated.
Qed.

Lemma series_run (l : list (operation * loc * value)) h cs lthis lb :
  lthis ≠ lb →
  is_instance h lthis lb →
  ∃ h' new,
    invoke_all (VObject lthis) (as_requests l) (World h cs)
    = (Normal (map c_result new), World h' (cs ++ new)) ∧
    is_instance h' lthis lb ∧
    map signature_of new = map expected_signature l ∧
    Forall (λ c, c_base c = lb) new.
Proof.
  intros Hne. revert h cs.
  induction l as [|[[op lr] opts] l IH]; intros h cs Hb.
  - exists h, []. simpl. by rewrite List.app_nil_r.
  - simpl. unfold bind at 1.
    rewrite (invoke_run_object op h cs lthis lb lr opts Hb).
    unfold performed. simpl.
    destruct (IH (heap_after lb h op (VObject lr) opts)
                 (cs ++ [the_call lb h op (VObject lr) opts])%list
                 (performed_keeps_instance op h lthis lb _ opts Hne Hb))
      as (h' & new & E & Hb' & Hsig & Hbase).
    exists h', (the_call lb h op (VObject lr) opts :: new).
    unfold bind. rewrite E. simpl. rewrite <- app_assoc. simpl.
    repeat split; [done| |by constructor].
    by rewrite Hsig.
Qed.
End Series.

(** X5. A series of invocations on request objects makes one call each,
    recorded in the order of the invocations, each on the APIBase of the
    instance, with the verb and content type of its method and the request
    and options it was given; the promises come back in the same order. *)
Theorem series_makes_one_call_each {B : APIBase}
    (l : list (operation * loc * value))
    (h : heap) (cs : list call) (lthis lb : loc) :
  transport_frame B →
  lthis ≠ lb →
  is_instance h lthis lb →
  ∃ h' new,
    invoke_all (VObject lthis) (as_requests l) (World h cs)
    = (Normal (map c_result new), World h' (cs ++ new)) ∧
    length new = length l ∧
    map signature_of new = map expected_signature l ∧
    Forall (λ c, c_base c = lb) new.
Proof.
  intros Hframe Hne Hb.
  destruct (series_run Hframe l h cs lthis lb Hne Hb)
    as (h' & new & E & _ & Hsig & Hbase).
  exists h', new. repeat split; try done.
  apply (f_equal length) in Hsig. by rewrite !length_map in Hsig.
Qed.

Lemma series_makes_one_call_each_witness :
  ∃ h' new,
    @invoke_all Demo.B (VObject Demo.instance)
      (as_requests [(ReadStack, Demo.req, VUndefined);
                    (CreatePkg, Demo.bare, VNull);
                    (ReadStack, Demo.req, VUndefined)])
      (World Demo.objects [])
    = (Normal (map c_result new), World h' ([] ++ new)) ∧
    length new = 3 ∧
    map signature_of new
    = [("GET", VObject Demo.req, VUndefined, None);
       ("POST", VObject Demo.bare, VNull, Some "application/json");
       ("GET", VObject Demo.req, VUndefined, None)].
Proof.
  destruct (@series_makes_one_call_each Demo.B
              [(ReadStack, Demo.req, VUndefined);
               (CreatePkg, Demo.bare, VNull);
               (ReadStack, Demo.req, VUndefined)]
              Demo.objects [] Demo.instance Demo.apibase
              (SpecBase_frame Demo.server) ltac:(discriminate) eq_refl)
    as (h' & new & E & Hlen & Hsig & _).
  exists h', new. split; [exact E|]. split; [exact Hlen|exact Hsig].
Defined.

(** X6. A method that throws ends the series: the calls made before it
    stay on record, one for each earlier invocation, and none of the later
    invocations is made. *)
Theorem series_stops_at_throw {B : APIBase}
    (l1 : list (operation * loc * value)) (op : operation) (opts : value)
    (l2 : list (operation * value * value))
    (h : heap) (cs : list call) (lthis lb : loc) :
  transport_frame B →
  lthis ≠ lb →
  is_instance h lthis lb →
  path_param op = true →
  ∃ msg h' new,
    invoke_all (VObject lthis)
      (as_requests l1 ++ (op, VUndefined, opts) :: l2) (World h cs)
    = (Throw (TypeError msg), World h' (cs ++ new)) ∧
    length new = length l1 ∧
    map signature_of new = map expected_signature l1.
Proof.
  intros Hframe Hne Hb Hp. revert h cs Hb.
  induction l1 as [|[[op1 lr] opts1] l1 IH]; intros h cs Hb.
  - simpl. unfold bind at 1.
    rewrite (invoke_throw op h cs lthis lb VUndefined opts _ Hb Hp eq_refl).
    eexists _, h, []. by rewrite List.app_nil_r.
  - simpl. unfold bind at 1.
    rewrite (invoke_run_object op1 h cs lthis lb lr opts1 Hb).
    unfold performed. simpl.
    destruct (IH (heap_after lb h op1 (VObject lr) opts1)
                 (cs ++ [the_call lb h op1 (VObject lr) opts1])%list
                 (performed_keeps_instance Hframe op1 h lthis lb _ opts1 Hne Hb))
      as (msg & h' & new & E & Hlen & Hsig).
    exists msg, h', (the_call lb h op1 (VObject lr) opts1 :: new).
    unfold bind. rewrite E. simpl. rewrite <- app_assoc. simpl.
    repeat split; [by rewrite Hlen|by rewrite Hsig].
Qed.

Lemma series_stops_at_throw_witness :
  ∃ msg h' new,
    @invoke_all Demo.B (VObject Demo.instance)
      (as_requests [(CreatePkg, Demo.bare, VNull)] ++
       (DeleteStack, VUndefined, VNull) :: [(CreateStack, VObject Demo.bare, VNull)])
      (World Demo.objects [])
    = (Throw (TypeError msg), World h' ([] ++ new)) ∧
    length new = 1.
Proof.
  destruct (@series_stops_at_throw Demo.B
              [(CreatePkg, Demo.bare, VNull)] DeleteStack VNull
              [(CreateStack, VObject Demo.bare, VNull)]
              Demo.objects [] Demo.instance Demo.apibase
              (SpecBase_frame Demo.server) ltac:(discriminate) eq_refl eq_refl)
    as (msg & h' & new & E & Hlen & _).
  exists msg, h', new. split; [exact E|exact Hlen].
Defined.

(** X7. Nothing is kept from one call to the next: with an APIBase that
    leaves the heap as it is, the same invocation made twice makes the same
    call twice, both on record, and returns the same promise twice. *)
Theorem same_invocation_same_call_again {B : APIBase} (op : operation)
    (h : heap) (cs : list call) (lthis lb lr : loc) (opts : value) :
  read_only B →
  is_instance h lthis lb →
  ∃ c,
    invoke_all (VObject lthis)
      [(op, VObject lr, opts); (op, VObject lr, opts)] (World h cs)
    = (Normal [c_result c; c_result c], World h (cs ++ [c; c])).
Proof.
  intros Hro Hb. exists (the_call lb h op (VObject lr) opts).
  simpl. unfold bind at 1.
  rewrite (invoke_run_object op h cs lthis lb lr opts Hb).
  unfold performed. simpl. unfold heap_after. rewrite Hro.
  unfold bind.
  rewrite (invoke_run_object op h _ lthis lb lr opts Hb).
  unfold performed. simpl. unfold heap_after. rewrite Hro.
  unfold ret. simpl. by rewrite <- app_assoc.
Qed.

Lemma SpecBase_read_only server : read_only (SpecBase.base server).
Proof. by intros lb method path req opts mediaType h. Qed.

Lemma same_invocation_same_call_again_witness :
  ∃ c,
    @invoke_all Demo.B (VObject Demo.instance)
      [(DeleteStack, VObject Demo.req, VUndefined);
       (DeleteStack, VObject Demo.req, VUndefined)] (World Demo.objects [])
    = (Normal [c_result c; c_result c], World Demo.objects ([] ++ [c; c])).
Proof.
  exact (@same_invocation_same_call_again Demo.B DeleteStack Demo.objects []
           Demo.instance Demo.apibase Demo.req VUndefined
           (SpecBase_read_only Demo.server) eq_refl).
Defined.

(** ** Making instances *)

(** X8. The constructor does nothing about a failure of APIBase's own
    constructor: it throws exactly when that one throws on its new object,
    and throws the same error; otherwise it returns the new instance.  In
    neither case is a call of [base.request] made. *)
Theorem constructor_fails_as_APIBase_does {B : APIBase} (influxDB : value)
    (h : heap) (cs : list call) :
  let lthis := fresh (dom h) in
  let lb := fresh (dom (<[lthis := ∅]> h)) in
  let r := init lb influxDB (<[lb := ∅]> (<[lthis := ∅]> h)) in
  let out := PackagesAPI.constructor influxDB (World h cs) in
  (∀ e, out.1 = Throw e ↔ r.1 = Throw e) ∧
  (out.1 = Normal (VObject lthis) ↔ ∃ u, r.1 = Normal u) ∧
  w_calls out.2 = cs.
Proof.
  intros lthis lb r out.
  destruct (constructor_run influxDB h cs) as (_ & _ & _ & E).
  fold lthis lb r in E. unfold out. rewrite E.
  destruct r as [[u|e0] h3]; simpl; repeat split; try done; eauto.
  all: try (by intros [u' Hu]); by intros [= ->].
Qed.

(** An APIBase that wants a connection. *)
Example constructor_without_connection :
  @PackagesAPI.constructor
    (Build_APIBase
       (λ lb influxDB h,
          match influxDB with
          | VObject _ => SpecBase.init_spec lb influxDB h
          | _ => (Throw (Error "No influxDB supplied!"), h)
          end)
       (SpecBase.request_spec Demo.server) SpecBase.queryString_spec)
    VUndefined (World ∅ [])
  = (Throw (Error "No influxDB supplied!"),
     World (<[2%positive := ∅]> (<[1%positive := ∅]> ∅)) []).
Proof. reflexivity. Qed.

Section TwoInstances.
Context {B : APIBase}.
Hypothesis frame : init_frame B.

(** What the caller had is as it was, and the APIBase of the instance is
    there. *)
Lemma constructed_keeps influxDB h cs lthis w1 :
  PackagesAPI.constructor influxDB (World h cs) = (Normal (VObject lthis), w1) →
  (∀ l, is_Some (h !! l) → w_heap w1 !! l = h !! l) ∧
  (∀ lb, is_instance (w_heap w1) lthis lb → is_Some (w_heap w1 !! lb)).
Proof.
  destruct (constructor_run influxDB h cs) as (Hthis & Hb & Hne & E).
  rewrite E. clear E.
  set (l0 := fresh (dom h)) in *.
  set (b0 := fresh (dom (<[l0 := ∅]> h))) in *.
  pose proof (frame b0 influxDB (<[b0 := ∅]> (<[l0 := ∅]> h))) as Hf.
  destruct (init b0 influxDB (<[b0 := ∅]> (<[l0 := ∅]> h))) as [[[]|e] h3];
    simpl in *; [|done].
  intros [= <- <-]. simpl. split.
  - intros l Hl.
    assert (l ≠ l0) by (intros ->; by apply elem_of_dom in Hl).
    assert (l ≠ b0) by (intros ->; by apply elem_of_dom in Hl).
    rewrite lookup_insert_ne by done.
    assert (is_Some (<[b0 := ∅]> (<[l0 := ∅]> h) !! l)) as Hs
      by (by rewrite !lookup_insert_ne).
    destruct (Hf l Hs) as [_ Heq]. rewrite Heq by done.
    by rewrite !lookup_insert_ne.
  - intros lb. unfold is_instance. rewrite lookup_insert_eq. simpl.
    rewrite lookup_insert_eq. intros [= <-].
    rewrite lookup_insert_ne by done.
    apply Hf. by rewrite lookup_insert_eq.
Qed.
End TwoInstances.

(** X9. Each instance has an APIBase of its own: two instances made one
    after the other, be it from the same connection, are two objects with
    two different APIBase objects, the first instance still referring to
    its own after the second is made; and a call through either is made on
    its own APIBase. *)
Theorem instances_do_not_share_base {B : APIBase} (db1 db2 : value)
    (h : heap) (cs : list call) (this1 this2 : value) (w1 w2 : world) :
  init_frame B →
  PackagesAPI.constructor db1 (World h cs) = (Normal this1, w1) →
  PackagesAPI.constructor db2 w1 = (Normal this2, w2) →
  ∃ l1 b1 l2 b2,
    this1 = VObject l1 ∧ this2 = VObject l2 ∧
    is_instance (w_heap w2) l1 b1 ∧ is_instance (w_heap w2) l2 b2 ∧
    l1 ≠ l2 ∧ b1 ≠ b2 ∧ b1 ≠ l2 ∧ b2 ≠ l1 ∧
    (∀ op lr opts cs',
       ∃ p1 h1 c1 p2 h2 c2,
         invoke op this1 (VObject lr) opts (World (w_heap w2) cs')
         = (Normal p1, World h1 (cs' ++ [c1])) ∧
         invoke op this2 (VObject lr) opts (World (w_heap w2) cs')
         = (Normal p2, World h2 (cs' ++ [c2])) ∧
         c_base c1 = b1 ∧ c_base c2 = b2).
Proof.
  intros Hframe E1 E2.
  destruct (constructed_instance _ _ _ _ _ E1)
    as (l1 & b1 & -> & _ & _ & Hne1 & Hi1 & _).
  destruct w1 as [h1 cs1]. simpl in Hi1.
  destruct (constructed_instance _ _ _ _ _ E2)
    as (l2 & b2 & -> & Hl2 & Hb2 & Hne2 & Hi2 & _).
  destruct (constructed_keeps Hframe _ _ _ _ _ E1) as [_ Hb1].
  destruct (constructed_keeps Hframe _ _ _ _ _ E2) as [Hold _].
  specialize (Hb1 b1 Hi1). simpl in Hb1.
  pose proof (instance_allocated _ _ _ Hi1) as Hl1.
  assert (is_instance (w_heap w2) l1 b1) as Hi1'.
  { eapply is_instance_lookup; [|exact Hi1]. by apply Hold. }
  exists l1, b1, l2, b2. repeat split; try done.
  - intros ->. by apply elem_of_dom in Hl1.
  - intros ->. by apply elem_of_dom in Hb1.
  - intros ->. by apply elem_of_dom in Hb1.
  - intros ->. by apply elem_of_dom in Hl1.
  - intros op lr opts cs'.
    rewrite (invoke_run_object op _ cs' l1 b1 lr opts Hi1').
    rewrite (invoke_run_object op _ cs' l2 b2 lr opts Hi2).
    unfold performed. simpl. do 6 eexists. by repeat split.
Qed.

Lemma SpecBase_init_frame server : init_frame (SpecBase.base server).
Proof.
  intros lb influxDB h l Hl. simpl. unfold SpecBase.init_spec. simpl. split.
  - destruct (decide (lb = l)) as [->|Hne].
    + rewrite lookup_insert_eq. eauto.
    + by rewrite lookup_insert_ne.
  - intros Hne. by rewrite lookup_insert_ne.
Qed.

Lemma instances_do_not_share_base_witness :
  ∃ l1 b1 l2 b2,
    is_instance
      (w_heap (@PackagesAPI.constructor Demo.B (VObject Demo.connection)
                 (@PackagesAPI.constructor Demo.B (VObject Demo.connection)
                    Demo.before).2).2) l1 b1 ∧
    is_instance
      (w_heap (@PackagesAPI.constructor Demo.B (VObject Demo.connection)
                 (@PackagesAPI.constructor Demo.B (VObject Demo.connection)
                    Demo.before).2).2) l2 b2 ∧
    l1 ≠ l2 ∧ b1 ≠ b2.
Proof.
  destruct (@instances_do_not_share_base Demo.B
              (VObject Demo.connection) (VObject Demo.connection)
              (w_heap Demo.before) []
              (VObject 2%positive) (VObject 4%positive)
              (@PackagesAPI.constructor Demo.B (VObject Demo.connection)
                 Demo.before).2
              (@PackagesAPI.constructor Demo.B (VObject Demo.connection)
                 (@PackagesAPI.constructor Demo.B (VObject Demo.connection)
                    Demo.before).2).2)
    as (l1 & b1 & l2 & b2 & _ & _ & H1 & H2 & Hl & Hb & _).
  - apply SpecBase_init_frame.
  - reflexivity.
  - reflexivity.
  - exists l1, b1, l2, b2. by repeat split.
Defined.

(** X10. The five methods that ask for no query string take nothing from
    the request into the URL but the [stack_id]: two requests with the same
    [stack_id], whatever else they hold (a [body], say), in whatever heap
    and with whatever APIBase, give the same URL. *)
Theorem url_depends_on_stack_id_alone (B1 B2 : APIBase) (op : operation)
    (h1 h2 : heap) (cs1 cs2 : list call)
    (lthis1 lb1 lr1 lthis2 lb2 lr2 : loc) (opts1 opts2 : value) :
  is_instance h1 lthis1 lb1 →
  is_instance h2 lthis2 lb2 →
  contract_query op = [] →
  field h1 (VObject lr1) "stack_id" = field h2 (VObject lr2) "stack_id" →
  ∃ p1 h1' c1 p2 h2' c2,
    @invoke B1 op (VObject lthis1) (VObject lr1) opts1 (World h1 cs1)
    = (Normal p1, World h1' (cs1 ++ [c1])) ∧
    @invoke B2 op (VObject lthis2) (VObject lr2) opts2 (World h2 cs2)
    = (Normal p2, World h2' (cs2 ++ [c2])) ∧
    c_path c1 = c_path c2 ∧
    c_method c1 = c_method c2 ∧
    c_mediaType c1 = c_mediaType c2.
Proof.
  intros Hb1 Hb2 Hq Hs.
  rewrite (@invoke_run_object B1 op h1 cs1 lthis1 lb1 lr1 opts1 Hb1).
  rewrite (@invoke_run_object B2 op h2 cs2 lthis2 lb2 lr2 opts2 Hb2).
  unfold performed. simpl. do 6 eexists.
  split; [reflexivity|]. split; [reflexivity|].
  unfold the_call. simpl. repeat split.
  destruct op; try discriminate Hq; simpl; by rewrite ?Hs.
Qed.

Lemma url_depends_on_stack_id_alone_witness :
  let h := <[Demo.spare := <["body" := VObject Demo.bare]>
                             {["stack_id" := VString "abc"]}]> Demo.objects in
  ∃ p1 h1' c1 p2 h2' c2,
    @invoke Demo.B UpdateStack (VObject Demo.instance) (VObject Demo.req)
      VUndefined (World Demo.objects [])
    = (Normal p1, World h1' ([] ++ [c1])) ∧
    @invoke Demo.B UpdateStack (VObject Demo.instance) (VObject Demo.spare)
      VNull (World h [])
    = (Normal p2, World h2' ([] ++ [c2])) ∧
    c_path c1 = c_path c2 ∧
    c_method c1 = c_method c2 ∧
    c_mediaType c1 = c_mediaType c2.
Proof.
  exact (url_depends_on_stack_id_alone Demo.B Demo.B UpdateStack
           Demo.objects
           (<[Demo.spare := <["body" := VObject Demo.bare]>
                              {["stack_id" := VString "abc"]}]> Demo.objects)
           [] [] Demo.instance Demo.apibase Demo.req
           Demo.instance Demo.apibase Demo.spare VUndefined VNull
           eq_refl eq_refl eq_refl eq_refl).
Defined.
